(** * automated_sqlmap.py: the identifier extractor and the scan orchestrator

    A shallow embedding of [Automated tools/automated_sqlmap.py].

    - Python [str] values are sequences of Unicode code points: a character
      is a code point in [N], a string is a list of them.
    - [re.findall] is embedded for the fragment of regular expressions the
      script uses: literal characters and one capturing group [(.*?)].
    - The effects of the script (the prompt, [print], and
      [subprocess.getoutput]) are embedded in a state-and-output monad over
      an abstract outside world. *)

From Stdlib Require Import Ascii String.
From Stdlib Require Import List NArith Arith Lia Bool.
From Equations Require Import Equations.
Import ListNotations.

Set Implicit Arguments.

(* ===================================================================== *)
(** * Strings *)
(* ===================================================================== *)

Definition char := N.
Definition str := list char.

(** A character literal and a string literal of the script. *)
Definition ch (a : ascii) : char := N_of_ascii a.
Definition py (s : string) : str := map N_of_ascii (list_ascii_of_string s).

(** The newline character, written [\n] in the script. *)
Definition nl : char := 10%N.

(** [sep.join(items)] *)
Fixpoint join (sep : str) (items : list str) : str :=
  match items with
  | [] => []
  | [x] => x
  | x :: rest => x ++ sep ++ join sep rest
  end.

(** [c.isspace()] for a single code point: the characters Python's [str]
    treats as whitespace. *)
Definition isspace (c : char) : bool :=
  ((9 <=? c) && (c <=? 13) || (28 <=? c) && (c <=? 32)
   || (c =? 133) || (c =? 160) || (c =? 5760)
   || (8192 <=? c) && (c <=? 8202)
   || (c =? 8232) || (c =? 8233) || (c =? 8239) || (c =? 8287)
   || (c =? 12288))%N.

(** [s.lstrip()], [s.rstrip()] and [s.strip()] without arguments. *)
Fixpoint lstrip (s : str) : str :=
  match s with
  | [] => []
  | c :: s' => if isspace c then lstrip s' else s
  end.

Definition rstrip (s : str) : str := rev (lstrip (rev s)).

Definition strip (s : str) : str := rstrip (lstrip s).

(* ===================================================================== *)
(** * Regular expressions: the fragment used by the script *)
(* ===================================================================== *)

(** The pattern [\[\*\] (.*?)\n] is a sequence of literal characters around
    one capturing group whose body is a lazy [.*?].  A pattern is a list of
    such nodes. *)
Inductive node : Type :=
| Lit (c : char)     (* one literal character *)
| LazyDotGroup.      (* the group (.*?) *)

Definition regex := list node.

(** [.*?] followed by the rest of the pattern [k]: first try the rest of
    the pattern at the current position; only if that fails let [.] take one
    more character, which must not be a newline (no DOTALL flag), and try
    again.  The result is the text captured by the group and the input left
    after the whole match. *)
Fixpoint lazy_dot_star (k : str -> option (str * str)) (s : str)
  : option (str * str) :=
  match k s with
  | Some (_, rest) => Some ([], rest)
  | None =>
      match s with
      | [] => None
      | x :: s' =>
          if (x =? nl)%N then None
          else match lazy_dot_star k s' with
               | Some (cap, rest) => Some (x :: cap, rest)
               | None => None
               end
      end
  end.

(** Match pattern [p] at the start of [s] (as [re.match] does): the captured
    group and the unconsumed input, or [None]. *)
Fixpoint match_here (p : regex) (s : str) : option (str * str) :=
  match p with
  | [] => Some ([], s)
  | Lit c :: p' =>
      match s with
      | [] => None
      | x :: s' => if (x =? c)%N then match_here p' s' else None
      end
  | LazyDotGroup :: p' => lazy_dot_star (match_here p') s
  end.

(** [re.findall(p, s)] for a pattern with one group: scan from the left; at
    each position try to match; after a match, record the group and resume
    where the match ended; otherwise move one character to the right.  (The
    script's pattern consumes at least five characters, so an empty match
    never occurs; this model steps over one character after one.) *)
Equations findall (p : regex) (s : str) : list str by wf (length s) lt :=
  findall p [] with match_here p [] => {
    | Some (cap, _) := [cap];
    | None := [] };
  findall p (c :: s') with match_here p (c :: s') => {
    | Some (cap, rest) with lt_dec (length rest) (S (length s')) => {
        | left _ := cap :: findall p rest;
        | right _ := cap :: findall p s' };
    | None := findall p s' }.

(* ===================================================================== *)
(** * The identifier extractor *)
(* ===================================================================== *)

(** [match if match else []] *)
Definition or_empty (A : Type) (m : list A) : list A :=
  match m with
  | [] => []
  | _ :: _ => m
  end.

Definition extract_databases (output : str) : list str :=
  let m := findall [Lit (ch "["); Lit (ch "*"); Lit (ch "]"); Lit (ch " ");
                    LazyDotGroup; Lit nl] output in
  or_empty m.

Definition extract_tables (output : str) : list str :=
  let m := findall [Lit (ch "["); Lit (ch "*"); Lit (ch "]"); Lit (ch " ");
                    LazyDotGroup; Lit nl] output in
  or_empty m.

Definition extract_columns (output : str) : list str :=
  let m := findall [Lit (ch "["); Lit (ch "*"); Lit (ch "]"); Lit (ch " ");
                    LazyDotGroup; Lit nl] output in
  or_empty m.

(* ===================================================================== *)
(** * The outside world and the effects of the script *)
(* ===================================================================== *)

(** What the script does to the outside world, in the order it does it. *)
Inductive event : Type :=
| Prompt (text : str)    (* input(text) shows its prompt *)
| Print (text : str)     (* print(text) *)
| Invoke (cmd : str).    (* subprocess.getoutput(cmd) runs cmd in a shell *)

(** The command lines the script ran, in order. *)
Definition invocations (t : list event) : list str :=
  flat_map (fun e => match e with Invoke cmd => [cmd] | _ => [] end) t.

(** The lines the script printed, in order. *)
Definition printed (t : list event) : list str :=
  flat_map (fun e => match e with Print text => [text] | _ => [] end) t.

Section Orchestrator.

(** The outside world is abstract: [tool cmd w] is the text
    [subprocess.getoutput(cmd)] returns in world [w], with the world after
    the command has run; [read_line w] is the line [input] reads from
    standard input.  Both always deliver a text: a closed standard input
    is outside this embedding. *)
Variable World : Type.
Variable tool : str -> World -> str * World.
Variable read_line : World -> str * World.

(** A computation returns a value, the events it caused, and the world it
    leaves behind. *)
Definition M (A : Type) : Type := World -> A * list event * World.

Definition ret (A : Type) (a : A) : M A := fun w => (a, [], w).

Definition bind (A B : Type) (m : M A) (k : A -> M B) : M B :=
  fun w =>
    let '(a, t1, w1) := m w in
    let '(b, t2, w2) := k a w1 in
    (b, t1 ++ t2, w2).

Notation "x <- m ;; k" := (bind m (fun x => k))
  (at level 61, m at next level, right associativity).
Notation "m ;; k" := (bind m (fun _ => k))
  (at level 61, right associativity).

Definition trace (A : Type) (m : M A) (w : World) : list event :=
  snd (fst (m w)).

Definition print (text : str) : M unit :=
  fun w => (tt, [Print text], w).

Definition input (prompt : str) : M str :=
  fun w => let '(line, w') := read_line w in (line, [Prompt prompt], w').

Definition getoutput (cmd : str) : M str :=
  fun w => let '(out, w') := tool cmd w in (out, [Invoke cmd], w').

(** [for x in items: body] *)
Fixpoint for_each (A : Type) (items : list A) (body : A -> M unit) : M unit :=
  match items with
  | [] => ret tt
  | x :: rest => body x ;; for_each rest body
  end.

(** The three command lines, as the f-strings build them. *)
Definition dbs_command (url : str) : str :=
  py "sqlmap -u " ++ url ++ py " --batch --dbs --disable-color".

Definition tables_command (url db : str) : str :=
  py "sqlmap -u " ++ url ++ py " -D " ++ db ++ py " --batch --tables".

Definition columns_command (url db table : str) : str :=
  py "sqlmap -u " ++ url ++ py " -D " ++ db ++ py " -T " ++ table
     ++ py " --batch --columns".

(** Body of [for table in tables]. *)
Definition run_table (url db table : str) : M unit :=
  print (py "Extracting columns from " ++ table ++ py "...") ;;
  columns_output <- getoutput (columns_command url db table) ;;
  print columns_output ;;
  let columns := extract_columns columns_output in
  match columns with
  | [] => print (py "No columns found in table " ++ table ++ py ".")
  | _ :: _ =>
      print (py "Columns in " ++ table ++ py ": " ++ join (py ", ") columns)
  end.

(** Body of [for db in databases]. *)
Definition run_database (url db : str) : M unit :=
  print (py "Found database: " ++ db) ;;
  tables_output <- getoutput (tables_command url db) ;;
  print tables_output ;;
  let tables := extract_tables tables_output in
  match tables with
  | [] => print (py "No tables found in database " ++ db ++ py ".")
  | _ :: _ => for_each tables (run_table url db)
  end.

Definition run_sqlmap (url : str) : M unit :=
  print (py "Running SQLMap on " ++ url ++ py " to fetch databases...") ;;
  dbs_output <- getoutput (dbs_command url) ;;
  print dbs_output ;;
  let databases := extract_databases dbs_output in
  match databases with
  | [] => print (py "No databases found.")
  | _ :: _ => for_each databases (run_database url)
  end.

(** The [if __name__ == "__main__":] block. *)
Definition main : M unit :=
  line <- input (py "Enter target URL: ") ;;
  let target_url := strip line in
  match target_url with
  | _ :: _ => run_sqlmap target_url
  | [] => print (py "Invalid URL")
  end.

End Orchestrator.

(** A scripted world, for running the script on canned answers: the lines
    waiting on standard input and the texts the tool will return, in the
    order they are asked for (an exhausted script answers with the empty
    text). *)
Record script : Type := {
  stdin : list str;
  answers : list str
}.

Definition script_tool (cmd : str) (w : script) : str * script :=
  match answers w with
  | [] => ([], w)
  | out :: rest => (out, {| stdin := stdin w; answers := rest |})
  end.

Definition script_read_line (w : script) : str * script :=
  match stdin w with
  | [] => ([], w)
  | line :: rest => (line, {| stdin := rest; answers := answers w |})
  end.

(** Canned runs: a target with one database [db1] holding the tables [t1]
    and [t2]; a target whose listing shows no database; a listing with a
    bare marker line. *)
Definition example_url : str := py "http://target/item?id=1".

Definition example_world : script :=
  {| stdin := [py "  http://target/item?id=1 "];
     answers := [py "available databases [1]:" ++ [nl] ++ py "[*] db1" ++ [nl];
                 py "[*] t1" ++ [nl] ++ py "[*] t2" ++ [nl];
                 py "[*] id" ++ [nl] ++ py "[*] name" ++ [nl]] |}.

Definition blank_world : script :=
  {| stdin := [py "   "]; answers := [] |}.

Definition empty_world : script :=
  {| stdin := []; answers := [py "[CRITICAL] no injectable parameter" ++ [nl]] |}.

Definition bare_marker_world : script :=
  {| stdin := [];
     answers := [py "available databases [1]:" ++ [nl] ++ py "[*] " ++ [nl]] |}.

(* ===================================================================== *)
(** * Reading a text line by line *)
(* ===================================================================== *)

(** The marker that starts the script's pattern. *)
Definition marker : str := py "[*] ".

(** The pattern [\[\*\] (.*?)\n] that each of the three extractors hands to
    [re.findall]: the marker, the group, a newline. *)
Definition marker_pattern : regex :=
  map Lit marker ++ [LazyDotGroup; Lit nl].

(** A line of text with its newline. *)
Definition line (s : string) : str := py s ++ [nl].

(** The lines of a text that end in a newline (without their newline), and
    what is left after the last newline. *)
Fixpoint split_lines (s : str) : list str * str :=
  match s with
  | [] => ([], [])
  | c :: s' =>
      let '(ls, r) := split_lines s' in
      if (c =? nl)%N then ([] :: ls, r)
      else match ls with
           | [] => ([], c :: r)
           | l :: ls' => ((c :: l) :: ls', r)
           end
  end.

Definition terminated_lines (s : str) : list str := fst (split_lines s).

Definition unterminated_rest (s : str) : str := snd (split_lines s).

(** [s] without its prefix [p], when it starts with [p]. *)
Fixpoint strip_prefix (p s : str) : option str :=
  match p, s with
  | [], _ => Some s
  | _ :: _, [] => None
  | a :: p', x :: s' => if (x =? a)%N then strip_prefix p' s' else None
  end.

(** What follows the first occurrence of the marker in [l], if there is
    one. *)
Fixpoint after_marker (l : str) : option str :=
  match strip_prefix marker l with
  | Some r => Some r
  | None =>
      match l with
      | [] => None
      | _ :: l' => after_marker l'
      end
  end.

Definition capture_in_line (l : str) : list str :=
  match after_marker l with
  | Some r => [r]
  | None => []
  end.

(** The extractor, read line by line: every newline-terminated line that
    contains the marker gives what follows the first marker in it. *)
Definition extract_by_line (text : str) : list str :=
  flat_map capture_in_line (terminated_lines text).

(** Following the spec's words: "the ordered sequence of substrings that
    follow a literal marker [...] at the start of a line, up to the next
    newline".  Only a line that starts with the marker gives something. *)
Definition capture_at_line_start (l : str) : list str :=
  match strip_prefix marker l with
  | Some r => [r]
  | None => []
  end.

Definition extract_at_line_start (text : str) : list str :=
  flat_map capture_at_line_start (terminated_lines text).

(** A text has no newline in it. *)
Definition no_newline (s : str) : Prop := ~ In nl s.

(** The commands of one round of the outer loop, for some table listing
    [out]: the table listing, then the column listing of every table read
    from [out]. *)
Definition round_of (url db : str) (round : list str) : Prop :=
  exists out,
    round = tables_command url db
              :: map (columns_command url db) (extract_tables out).

(** A text is whitespace from end to end. *)
Definition blank (s : str) : Prop := forallb isspace s = true.

(** Equality of two texts. *)
Fixpoint str_eqb (a b : str) : bool :=
  match a, b with
  | [], [] => true
  | x :: a', y :: b' => (x =? y)%N && str_eqb a' b'
  | _, _ => false
  end.

(** A target that answers every command line the same way each time it is
    asked: its listing names the database [db1] twice, and [db1] holds the
    one table [t1]. *)
Definition steady_answer (cmd : str) : str :=
  if str_eqb cmd (py "sqlmap -u http://target/item?id=1 --batch --dbs --disable-color")
  then line "[*] db1" ++ line "[*] db1"
  else if str_eqb cmd (py "sqlmap -u http://target/item?id=1 -D db1 --batch --tables")
  then line "[*] t1"
  else [].

Section Rounds.

Variable World : Type.
Variable tool : str -> World -> str * World.

(** The commands of the outer loop over [dbs] started in world [w], one list
    per database: the table listing of the database, then the column listing
    of every table read from what the tool answers to that table listing in
    the world the loop has reached; the next database starts in the world
    its predecessor's round leaves. *)
Fixpoint rounds (url : str) (dbs : list str) (w : World) : list (list str) :=
  match dbs with
  | [] => []
  | db :: rest =>
      (tables_command url db
         :: map (columns_command url db)
                (extract_tables (fst (tool (tables_command url db) w))))
        :: rounds url rest (snd (run_database tool url db w))
  end.

End Rounds.

(** A database listing whose only marker stands inside its line. *)
Definition inline_marker_world : script :=
  {| stdin := []; answers := [py "id [*] a" ++ [nl]] |}.

(** A target with a memory: it answers as [steady_answer] does and counts
    the commands it has been given. *)
Definition counting_tool (cmd : str) (n : nat) : str * nat :=
  (steady_answer cmd, S n).

(* ===================================================================== *)
(** * Facts about the string helpers *)
(* ===================================================================== *)

Unset Implicit Arguments.

Lemma no_newline_cons (c : char) (s : str) :
  no_newline (c :: s) <-> c <> nl /\ no_newline s.
Proof.
  unfold no_newline; simpl; split.
  - intros H; split; [intros E | intros I]; apply H; auto.
  - intros [Hc Hs] [E | I]; [apply Hc; auto | apply Hs; exact I].
Qed.

Lemma no_newline_app (a b : str) :
  no_newline (a ++ b) <-> no_newline a /\ no_newline b.
Proof.
  unfold no_newline; rewrite in_app_iff; tauto.
Qed.

Lemma no_newline_marker : no_newline marker.
Proof.
  unfold no_newline, marker; simpl.
  intros [E | [E | [E | [E | []]]]]; discriminate E.
Qed.

Lemma strip_prefix_sound (p s r : str) :
  strip_prefix p s = Some r -> s = p ++ r.
Proof.
  revert s; induction p as [| a p IH]; intros [| x s]; simpl; try congruence.
  destruct (N.eqb_spec x a) as [-> |]; [| discriminate].
  intros H; rewrite (IH _ H); reflexivity.
Qed.

Lemma strip_prefix_app (p r : str) : strip_prefix p (p ++ r) = Some r.
Proof.
  induction p as [| a p IH]; simpl; [reflexivity |].
  rewrite N.eqb_refl; exact IH.
Qed.

(** Stripping a newline-free prefix from a line does not look past the
    line's newline. *)
Lemma strip_prefix_line (p l rest : str) :
  no_newline p ->
  strip_prefix p (l ++ nl :: rest)
  = option_map (fun r => r ++ nl :: rest) (strip_prefix p l).
Proof.
  revert l; induction p as [| a p IH]; intros l Hp; [reflexivity |].
  apply no_newline_cons in Hp; destruct Hp as [Ha Hp].
  destruct l as [| x l]; cbn [app strip_prefix option_map].
  - destruct (N.eqb_spec nl a); [congruence | reflexivity].
  - destruct (x =? a)%N; [apply IH; exact Hp | reflexivity].
Qed.

Lemma after_marker_cons (c : char) (l : str) :
  after_marker (c :: l)
  = match strip_prefix marker (c :: l) with
    | Some r => Some r
    | None => after_marker l
    end.
Proof. reflexivity. Qed.

(** [after_marker] finds the first occurrence of the marker: what it returns
    follows an occurrence, and no occurrence starts earlier. *)
Lemma after_marker_first (l r : str) :
  after_marker l = Some r ->
  exists pre,
    l = pre ++ marker ++ r
    /\ forall pre' r', l = pre' ++ marker ++ r' -> length pre <= length pre'.
Proof.
  revert r; induction l as [| c l IH]; intros r.
  - discriminate.
  - rewrite after_marker_cons.
    destruct (strip_prefix marker (c :: l)) as [r0 |] eqn:E.
    + intros [= <-]. exists []. split.
      * apply (strip_prefix_sound marker). exact E.
      * intros pre' r' _. apply Nat.le_0_l.
    + intros H. destruct (IH r H) as (pre & Hl & Hmin).
      exists (c :: pre). split; [rewrite Hl; reflexivity |].
      intros [| c' pre'] r' Hocc.
      * cbn [app] in Hocc. rewrite Hocc, strip_prefix_app in E. discriminate.
      * injection Hocc as _ Hocc. cbn [length].
        apply le_n_S. exact (Hmin pre' r' Hocc).
Qed.

Lemma after_marker_prefix (r : str) : after_marker (marker ++ r) = Some r.
Proof.
  destruct r; reflexivity.
Qed.

Lemma after_marker_complete (pre r : str) :
  after_marker (pre ++ marker ++ r) <> None.
Proof.
  induction pre as [| c pre IH].
  - change ([] ++ marker ++ r) with (marker ++ r).
    rewrite after_marker_prefix. discriminate.
  - change ((c :: pre) ++ marker ++ r) with (c :: (pre ++ marker ++ r)).
    rewrite after_marker_cons.
    destruct (strip_prefix marker (c :: pre ++ marker ++ r));
      [discriminate | exact IH].
Qed.

(** A line without the marker gives nothing; a line that starts with the
    marker gives the rest of the line, as the spec's reading does. *)
Lemma capture_in_line_prefix (r : str) : capture_in_line (marker ++ r) = [r].
Proof.
  unfold capture_in_line. rewrite after_marker_prefix. reflexivity.
Qed.

Lemma capture_at_line_start_agrees (l : str) :
  (forall r, strip_prefix marker l = Some r -> capture_in_line l = capture_at_line_start l)
  /\ (after_marker l = None -> capture_in_line l = capture_at_line_start l).
Proof.
  split.
  - intros r H. unfold capture_at_line_start. rewrite H.
    rewrite (strip_prefix_sound _ _ _ H). apply capture_in_line_prefix.
  - intros H. unfold capture_in_line, capture_at_line_start. rewrite H.
    destruct l as [| c l]; [reflexivity |].
    rewrite after_marker_cons in H.
    destruct (strip_prefix marker (c :: l)); [discriminate | reflexivity].
Qed.

(** [strip] leaves nothing exactly when every character is whitespace. *)
Lemma lstrip_all_space (s : str) :
  forallb isspace s = true -> lstrip s = [].
Proof.
  induction s as [| c s IH]; [reflexivity |].
  cbn [forallb lstrip]. intros H. apply andb_prop in H. destruct H as [Hc Hs].
  rewrite Hc. exact (IH Hs).
Qed.

Lemma lstrip_nil_inv (s : str) :
  lstrip s = [] -> forallb isspace s = true.
Proof.
  induction s as [| c s IH]; [reflexivity |].
  cbn [forallb lstrip]. destruct (isspace c); [exact IH | discriminate].
Qed.

Lemma lstrip_head (s : str) (c : char) (t : str) :
  lstrip s = c :: t -> isspace c = false.
Proof.
  induction s as [| x s IH]; [discriminate |].
  cbn [lstrip]. destruct (isspace x) eqn:E; [exact IH |].
  intros [= <- _]. exact E.
Qed.

Lemma strip_empty_iff (s : str) :
  strip s = [] <-> forallb isspace s = true.
Proof.
  unfold strip, rstrip. split.
  - intros H. apply lstrip_nil_inv.
    destruct (lstrip s) as [| c t] eqn:E; [reflexivity |].
    apply (f_equal (@rev char)) in H. rewrite rev_involutive in H.
    cbn [rev] in H. apply lstrip_nil_inv in H.
    rewrite forallb_forall in H.
    assert (Hc : isspace c = true).
    { apply H. apply (in_rev (c :: t)). left. reflexivity. }
    rewrite (lstrip_head _ _ _ E) in Hc. discriminate.
  - intros H. rewrite (lstrip_all_space _ H). reflexivity.
Qed.

(* ===================================================================== *)
(** * Facts about lines *)
(* ===================================================================== *)

Lemma split_lines_no_newline (r : str) :
  no_newline r -> split_lines r = ([], r).
Proof.
  induction r as [| c r IH]; intros H; [reflexivity |].
  apply no_newline_cons in H; destruct H as [Hc Hr].
  cbn [split_lines]. rewrite (IH Hr).
  destruct (N.eqb_spec c nl); [contradiction | reflexivity].
Qed.

Lemma split_lines_line (l rest : str) :
  no_newline l ->
  split_lines (l ++ nl :: rest)
  = (l :: terminated_lines rest, unterminated_rest rest).
Proof.
  unfold terminated_lines, unterminated_rest.
  induction l as [| c l IH]; intros H.
  - cbn [app split_lines]. destruct (split_lines rest). reflexivity.
  - apply no_newline_cons in H; destruct H as [Hc Hl].
    cbn [app split_lines]. rewrite (IH Hl).
    destruct (N.eqb_spec c nl); [contradiction | reflexivity].
Qed.

(** Text after the last newline changes no terminated line. *)
Lemma split_lines_app_rest (s tail : str) :
  no_newline tail ->
  split_lines (s ++ tail)
  = (terminated_lines s, unterminated_rest s ++ tail).
Proof.
  unfold terminated_lines, unterminated_rest. intros H.
  induction s as [| c s IH].
  - simpl. apply split_lines_no_newline. exact H.
  - cbn [app split_lines]. rewrite IH.
    destruct (split_lines s) as [ls r]. cbn [fst snd].
    destruct (c =? nl)%N; [reflexivity |].
    destruct ls; reflexivity.
Qed.

Lemma terminated_lines_newline (a b : str) :
  terminated_lines (a ++ nl :: b) <> [].
Proof.
  unfold terminated_lines.
  induction a as [| c a IH]; cbn [app split_lines].
  - destruct (split_lines b). discriminate.
  - destruct (split_lines (a ++ nl :: b)) as [ls r]. cbn [fst] in IH.
    destruct (c =? nl)%N; [discriminate |].
    destruct ls; [contradiction | discriminate].
Qed.

(** The lines of a text after a newline are the lines before it followed by
    the lines after it. *)
Lemma terminated_lines_app (a b : str) :
  terminated_lines (a ++ nl :: b)
  = terminated_lines (a ++ [nl]) ++ terminated_lines b.
Proof.
  induction a as [| c a IH].
  - unfold terminated_lines. cbn [app split_lines].
    destruct (split_lines b). reflexivity.
  - pose proof (terminated_lines_newline a []) as Hne.
    unfold terminated_lines in *. cbn [app split_lines].
    destruct (split_lines (a ++ nl :: b)) as [ls r].
    destruct (split_lines (a ++ [nl])) as [ls' r'].
    cbn [fst] in IH, Hne. subst ls.
    destruct (c =? nl)%N; [reflexivity |].
    destruct ls' as [| l ls']; [contradiction | reflexivity].
Qed.

(** A text is its terminated lines, each with its newline, followed by the
    unterminated rest; no line and no rest holds a newline. *)
Lemma split_lines_spec (s : str) :
  s = concat (map (fun l => l ++ [nl]) (terminated_lines s))
        ++ unterminated_rest s
  /\ Forall no_newline (terminated_lines s)
  /\ no_newline (unterminated_rest s).
Proof.
  unfold terminated_lines, unterminated_rest.
  induction s as [| c s (Heq & Hls & Hr)].
  - repeat split; [constructor | intros []].
  - cbn [split_lines]. destruct (split_lines s) as [ls r]. cbn [fst snd] in *.
    destruct (N.eqb_spec c nl) as [-> | Hc].
    + cbn [fst snd map concat app]. repeat split.
      * f_equal. exact Heq.
      * constructor; [intros [] | exact Hls].
      * exact Hr.
    + destruct ls as [| l ls]; cbn [fst snd map concat app] in *.
      * repeat split; [f_equal; exact Heq | constructor |].
        apply no_newline_cons; split; assumption.
      * repeat split.
        -- f_equal. exact Heq.
        -- inversion Hls; subst. constructor; [| assumption].
           apply no_newline_cons; split; assumption.
        -- exact Hr.
Qed.

(* ===================================================================== *)
(** * Facts about the matcher *)
(* ===================================================================== *)

(** Literal characters at the head of a pattern strip a prefix. *)
Lemma match_here_literals (m : str) (p : regex) (s : str) :
  match_here (map Lit m ++ p) s
  = match strip_prefix m s with
    | Some r => match_here p r
    | None => None
    end.
Proof.
  revert s; induction m as [| a m IH]; intros s; [reflexivity |].
  destruct s as [| x s]; cbn [map app match_here strip_prefix]; [reflexivity |].
  destruct (x =? a)%N; [apply IH | reflexivity].
Qed.

Lemma match_here_marker_pattern (s : str) :
  match_here marker_pattern s
  = match strip_prefix marker s with
    | Some r => lazy_dot_star (match_here [Lit nl]) r
    | None => None
    end.
Proof.
  unfold marker_pattern. apply match_here_literals.
Qed.

Lemma lazy_dot_star_cons (k : str -> option (str * str)) (x : char) (s : str) :
  lazy_dot_star k (x :: s)
  = match k (x :: s) with
    | Some (_, rest) => Some ([], rest)
    | None =>
        if (x =? nl)%N then None
        else match lazy_dot_star k s with
             | Some (cap, rest) => Some (x :: cap, rest)
             | None => None
             end
    end.
Proof. reflexivity. Qed.

Lemma match_here_newline (x : char) (s : str) :
  match_here [Lit nl] (x :: s) = if (x =? nl)%N then Some ([], s) else None.
Proof. reflexivity. Qed.

(** The lazy group stops at the first newline, and fails when there is
    none. *)
Lemma lazy_dot_star_line (l rest : str) :
  no_newline l ->
  lazy_dot_star (match_here [Lit nl]) (l ++ nl :: rest) = Some (l, rest).
Proof.
  induction l as [| c l IH]; intros H; cbn [app];
    rewrite lazy_dot_star_cons, match_here_newline.
  - rewrite N.eqb_refl. reflexivity.
  - apply no_newline_cons in H; destruct H as [Hc Hl].
    destruct (N.eqb_spec c nl); [contradiction |].
    rewrite (IH Hl). reflexivity.
Qed.

Lemma lazy_dot_star_no_newline (r : str) :
  no_newline r -> lazy_dot_star (match_here [Lit nl]) r = None.
Proof.
  induction r as [| c r IH]; intros H; [reflexivity |].
  apply no_newline_cons in H; destruct H as [Hc Hr].
  rewrite lazy_dot_star_cons, match_here_newline.
  destruct (N.eqb_spec c nl); [contradiction |].
  rewrite (IH Hr). reflexivity.
Qed.

(** One step of the scan. *)
Lemma findall_match (p : regex) (c : char) (s cap rest : str) :
  match_here p (c :: s) = Some (cap, rest) ->
  length rest < length (c :: s) ->
  findall p (c :: s) = cap :: findall p rest.
Proof.
  intros Hm Hlen. rewrite findall_equation_2, Hm.
  cbn [findall_unfold_clause_2 length] in *.
  destruct (lt_dec (length rest) (S (length s))) as [Hlt | Hn];
    [reflexivity | contradiction].
Qed.

Lemma findall_skip (p : regex) (c : char) (s : str) :
  match_here p (c :: s) = None ->
  findall p (c :: s) = findall p s.
Proof.
  intros Hm. rewrite findall_equation_2, Hm. reflexivity.
Qed.

(** Scanning one newline-terminated line: the line gives what follows its
    first marker, and the scan goes on after the newline. *)
Lemma findall_line (l rest : str) :
  no_newline l ->
  findall marker_pattern (l ++ nl :: rest)
  = capture_in_line l ++ findall marker_pattern rest.
Proof.
  induction l as [| c l IH]; intros H.
  - cbn [app]. rewrite findall_skip; reflexivity.
  - pose proof H as H'. apply no_newline_cons in H'; destruct H' as [Hc Hl].
    cbn [app]. unfold capture_in_line. rewrite after_marker_cons.
    pose proof (match_here_marker_pattern ((c :: l) ++ nl :: rest)) as Hm.
    rewrite (strip_prefix_line _ _ _ no_newline_marker) in Hm.
    cbn [app] in Hm.
    destruct (strip_prefix marker (c :: l)) as [r |] eqn:E; cbn [option_map] in Hm.
    + assert (Hr : no_newline r).
      { apply strip_prefix_sound in E. rewrite E in H.
        apply no_newline_app in H. tauto. }
      rewrite (lazy_dot_star_line _ rest Hr) in Hm.
      rewrite (findall_match _ _ _ _ _ Hm); [reflexivity |].
      apply strip_prefix_sound in E.
      change (length (c :: l ++ nl :: rest)) with (length ((c :: l) ++ nl :: rest)).
      rewrite E, !length_app. simpl. lia.
    + rewrite (findall_skip _ _ _ Hm). rewrite (IH Hl). reflexivity.
Qed.

Lemma findall_no_newline (r : str) :
  no_newline r -> findall marker_pattern r = [].
Proof.
  induction r as [| c r IH]; intros H.
  - reflexivity.
  - pose proof H as H'. apply no_newline_cons in H'; destruct H' as [Hc Hr].
    rewrite findall_skip; [exact (IH Hr) |].
    rewrite match_here_marker_pattern.
    destruct (strip_prefix marker (c :: r)) as [r' |] eqn:E; [| reflexivity].
    apply lazy_dot_star_no_newline.
    apply strip_prefix_sound in E. rewrite E in H.
    apply no_newline_app in H. tauto.
Qed.

Lemma findall_lines (ls : list str) (r : str) :
  Forall no_newline ls -> no_newline r ->
  findall marker_pattern (concat (map (fun l => l ++ [nl]) ls) ++ r)
  = flat_map capture_in_line ls.
Proof.
  intros Hls Hr. induction Hls as [| l ls Hl Hls IH].
  - apply findall_no_newline. exact Hr.
  - cbn [map concat flat_map]. rewrite <- !app_assoc. cbn [app].
    rewrite (findall_line _ _ Hl). rewrite IH. reflexivity.
Qed.

(** The scan of a text, read line by line. *)
Lemma findall_by_line (text : str) :
  findall marker_pattern text = extract_by_line text.
Proof.
  destruct (split_lines_spec text) as (Heq & Hls & Hr).
  rewrite Heq at 1. apply findall_lines; assumption.
Qed.

Lemma or_empty_id (A : Type) (m : list A) : or_empty m = m.
Proof. destruct m; reflexivity. Qed.

(* ===================================================================== *)
(** * The identifier extractor, settled *)
(* ===================================================================== *)

Lemma extract_databases_by_line (text : str) :
  extract_databases text = extract_by_line text.
Proof.
  unfold extract_databases. cbv zeta. rewrite or_empty_id.
  exact (findall_by_line text).
Qed.

(** Text after the last newline of the output is never extracted. *)
Lemma extract_databases_app_rest (text tail : str) :
  no_newline tail ->
  extract_databases (text ++ tail) = extract_databases text.
Proof.
  intros H. rewrite !extract_databases_by_line. unfold extract_by_line.
  unfold terminated_lines at 1. rewrite (split_lines_app_rest _ _ H).
  reflexivity.
Qed.

(** Lines that each start with the marker are read back in order, repeated
    names included. *)
Lemma extract_databases_marked_lines (names : list str) :
  Forall no_newline names ->
  extract_databases (concat (map (fun n => marker ++ n ++ [nl]) names))
  = names.
Proof.
  intros H. rewrite extract_databases_by_line.
  unfold extract_by_line. induction H as [| n names Hn H IH].
  - reflexivity.
  - cbn [map concat]. rewrite <- !app_assoc. cbn [app].
    rewrite app_assoc. unfold terminated_lines in *.
    rewrite split_lines_line.
    + cbn [fst flat_map]. rewrite capture_in_line_prefix.
      unfold terminated_lines. rewrite IH. reflexivity.
    + apply no_newline_app. split; [exact no_newline_marker | exact Hn].
Qed.

(** C1 (as stated, refuted): on the one-line text "id [*] a" the marker is
    not at the start of the line, yet the extractor returns ["a"], where the
    reading "marker at the start of a line" gives nothing. *)
Lemma extract_marker_inside_line :
  extract_databases (line "id [*] a") = [py "a"]
  /\ extract_at_line_start (line "id [*] a") = []
  /\ extract_databases (line "id [*] a") <> extract_at_line_start (line "id [*] a").
Proof.
  assert (E : extract_databases (line "id [*] a") = [py "a"])
    by (vm_compute; reflexivity).
  assert (F : extract_at_line_start (line "id [*] a") = [])
    by (vm_compute; reflexivity).
  split; [exact E | split; [exact F |]].
  rewrite E, F. discriminate.
Qed.

(** C1 (amended): for every input text, each of the three extractors returns,
    for every newline-terminated line that contains the marker "[*] "
    anywhere, the text between the first marker of that line and the line's
    newline, in the order of the lines; nothing else is returned. *)
Theorem extract_reads_first_marker_of_each_line (text : str) :
  extract_databases text = extract_by_line text
  /\ extract_tables text = extract_by_line text
  /\ extract_columns text = extract_by_line text.
Proof.
  split; [| split]; exact (extract_databases_by_line text).
Qed.

(** C5: on the three newline-terminated lines "[*] alpha", "[*] beta",
    "[*] alpha" the extractor returns ["alpha"; "beta"; "alpha"]: the order of
    appearance is kept and the repeated name is not removed. *)
Theorem extract_keeps_order_and_duplicates :
  extract_databases (line "[*] alpha" ++ line "[*] beta" ++ line "[*] alpha")
  = [py "alpha"; py "beta"; py "alpha"].
Proof.
  vm_compute. reflexivity.
Qed.

(** C7: the three extraction functions return the same sequence on every
    input text. *)
Theorem extractors_agree (output : str) :
  extract_databases output = extract_tables output
  /\ extract_tables output = extract_columns output.
Proof.
  split; reflexivity.
Qed.

(** C9: when the last line of the text is the marker followed by an
    identifier with no newline after it, the extractor returns exactly what
    it returns on the text before that line: the final identifier is left
    out. *)
Theorem extract_omits_unterminated_last_line (pre last : str) :
  no_newline last ->
  extract_databases (pre ++ marker ++ last) = extract_databases pre.
Proof.
  intros H. apply extract_databases_app_rest.
  apply no_newline_app. split; [exact no_newline_marker | exact H].
Qed.

Lemma extract_omits_unterminated_last_line_witness :
  no_newline (py "last")
  /\ extract_databases (line "[*] first" ++ marker ++ py "last")
     = extract_databases (line "[*] first")
  /\ extract_databases (line "[*] first") = [py "first"].
Proof.
  assert (H : no_newline (py "last")).
  { unfold no_newline. vm_compute. intuition discriminate. }
  split; [exact H |]. split.
  - exact (extract_omits_unterminated_last_line (line "[*] first") (py "last") H).
  - vm_compute. reflexivity.
Defined.

(** The extractor returns nothing exactly when no newline-terminated line
    holds the marker. *)
Lemma extract_databases_empty_iff (text : str) :
  extract_databases text = []
  <-> Forall (fun l => after_marker l = None) (terminated_lines text).
Proof.
  rewrite extract_databases_by_line. unfold extract_by_line.
  induction (terminated_lines text) as [| l ls IH]; cbn [flat_map].
  - split; [constructor | reflexivity].
  - unfold capture_in_line at 1. split.
    + intros H. apply app_eq_nil in H. destruct H as [Hl Hls].
      constructor; [| apply IH; exact Hls].
      destruct (after_marker l); [discriminate | reflexivity].
    + intros H. inversion H as [| l' ls' Hl Hls]; subst.
      rewrite Hl. apply IH. exact Hls.
Qed.

Lemma extract_databases_no_match (text : str) :
  Forall (fun l => after_marker l = None) (terminated_lines text) ->
  extract_databases text = [].
Proof.
  apply extract_databases_empty_iff.
Qed.

(** A line that is exactly the marker gives the empty identifier. *)
Lemma extract_databases_bare_marker (pre post : str) :
  pre = [] \/ (exists pre', pre = pre' ++ [nl]) ->
  In [] (extract_databases (pre ++ marker ++ [nl] ++ post)).
Proof.
  assert (Hline : In [] (flat_map capture_in_line
                           (terminated_lines (marker ++ nl :: post)))).
  { unfold terminated_lines.
    rewrite (split_lines_line _ _ no_newline_marker). cbn [fst flat_map].
    apply in_or_app. left.
    rewrite <- (app_nil_r marker). rewrite capture_in_line_prefix.
    left. reflexivity. }
  intros [-> | [pre' ->]]; rewrite extract_databases_by_line;
    unfold extract_by_line.
  - exact Hline.
  - rewrite <- app_assoc.
    change ([nl] ++ marker ++ [nl] ++ post) with (nl :: (marker ++ nl :: post)).
    rewrite terminated_lines_app, flat_map_app.
    apply in_or_app. right. exact Hline.
Qed.

(* ===================================================================== *)
(** * Facts about the orchestrator *)
(* ===================================================================== *)

Lemma invocations_app (a b : list event) :
  invocations (a ++ b) = invocations a ++ invocations b.
Proof. apply flat_map_app. Qed.

Section OrchestratorFacts.

Variable World : Type.
Variable tool : str -> World -> str * World.
Variable read_line : World -> str * World.

(** The events of a loop are the events of its first round followed by
    those of the remaining rounds, run in the world the first round
    left. *)
Lemma trace_for_each_cons (A : Type) (x : A) (rest : list A)
      (body : A -> M World unit) (w : World) :
  trace (for_each (x :: rest) body) w
  = trace (body x) w ++ trace (for_each rest body) (snd (body x w)).
Proof.
  unfold trace. cbn [for_each]. unfold bind.
  destruct (body x w) as [[u t1] w1]. cbn [fst snd].
  destruct (for_each rest body w1) as [[u' t2] w2]. reflexivity.
Qed.

(** One round of the inner loop runs the column listing once. *)
Lemma run_table_invocations (url db table : str) (w : World) :
  invocations (trace (run_table tool url db table) w)
  = [columns_command url db table].
Proof.
  unfold trace, run_table, bind, getoutput, print.
  destruct (tool (columns_command url db table) w) as [out w1].
  destruct (extract_columns out); reflexivity.
Qed.

Lemma for_each_run_table_invocations (url db : str) (tables : list str)
      (w : World) :
  invocations (trace (for_each tables (run_table tool url db)) w)
  = map (columns_command url db) tables.
Proof.
  revert w; induction tables as [| t tables IH]; intros w; [reflexivity |].
  rewrite trace_for_each_cons, invocations_app, run_table_invocations, IH.
  reflexivity.
Qed.

(** One round of the outer loop runs the table listing, then the column
    listing of every table extracted from its output. *)
Lemma run_database_invocations (url db : str) (w : World) :
  invocations (trace (run_database tool url db) w)
  = tables_command url db
      :: map (columns_command url db)
             (extract_tables (fst (tool (tables_command url db) w))).
Proof.
  unfold trace at 1. unfold run_database, bind, getoutput, print.
  destruct (tool (tables_command url db) w) as [out w1]. cbn [fst].
  destruct (extract_tables out) as [| t tables] eqn:E; [reflexivity |].
  pose proof (for_each_run_table_invocations url db (t :: tables) w1) as H.
  unfold trace in H.
  destruct (for_each (t :: tables) (run_table tool url db) w1) as [[u tr] w2].
  cbn [fst snd] in *. cbn [app invocations flat_map]. f_equal. exact H.
Qed.

(** A round that always runs a command [f x] makes the loop run [f x] for
    every item [x]. *)
Lemma for_each_invokes (A : Type) (body : A -> M World unit) (f : A -> str) :
  (forall x w, In (f x) (invocations (trace (body x) w))) ->
  forall items w x, In x items ->
    In (f x) (invocations (trace (for_each items body) w)).
Proof.
  intros Hbody items. induction items as [| y items IH]; intros w x Hx.
  - destruct Hx.
  - rewrite trace_for_each_cons, invocations_app. apply in_or_app.
    destruct Hx as [-> | Hx]; [left; apply Hbody | right; apply IH; exact Hx].
Qed.

(** What [run_sqlmap] does once the database listing has been read. *)
Lemma run_sqlmap_unfold (url : str) (w : World) :
  trace (run_sqlmap tool url) w
  = let '(dbs_output, w1) := tool (dbs_command url) w in
    [Print (py "Running SQLMap on " ++ url ++ py " to fetch databases...");
     Invoke (dbs_command url);
     Print dbs_output]
    ++ match extract_databases dbs_output with
       | [] => [Print (py "No databases found.")]
       | databases =>
           trace (for_each databases (run_database tool url)) w1
       end.
Proof.
  unfold trace at 1. unfold run_sqlmap, bind, getoutput, print.
  destruct (tool (dbs_command url) w) as [out w1].
  destruct (extract_databases out) as [| d ds]; [reflexivity |].
  unfold trace.
  destruct (for_each (d :: ds) (run_database tool url) w1) as [[u tr] w2].
  reflexivity.
Qed.

(** Every extracted database name gets its table listing run. *)
Lemma run_sqlmap_invokes_tables (url db : str) (w : World) :
  In db (extract_databases (fst (tool (dbs_command url) w))) ->
  In (tables_command url db) (invocations (trace (run_sqlmap tool url) w)).
Proof.
  intros H. rewrite run_sqlmap_unfold.
  destruct (tool (dbs_command url) w) as [out w1]. cbn [fst] in H.
  rewrite invocations_app. apply in_or_app. right.
  destruct (extract_databases out) as [| d ds] eqn:E; [destruct H |].
  apply (for_each_invokes _ (run_database tool url) (tables_command url));
    [| exact H].
  intros x w'. rewrite run_database_invocations. left. reflexivity.
Qed.

(** C2: when the database listing yields exactly ["db1"] and the table
    listing for db1 yields ["t1"; "t2"], [run_sqlmap] runs exactly four
    commands, in this order: databases, tables of db1, columns of t1,
    columns of t2. *)
Theorem run_sqlmap_four_invocations
        (url dbs_output tables_output : str) (w w1 w2 : World) :
  tool (dbs_command url) w = (dbs_output, w1) ->
  extract_databases dbs_output = [py "db1"] ->
  tool (tables_command url (py "db1")) w1 = (tables_output, w2) ->
  extract_tables tables_output = [py "t1"; py "t2"] ->
  invocations (trace (run_sqlmap tool url) w)
  = [dbs_command url;
     tables_command url (py "db1");
     columns_command url (py "db1") (py "t1");
     columns_command url (py "db1") (py "t2")].
Proof.
  intros Hdbs Edbs Htables Etables.
  rewrite run_sqlmap_unfold, Hdbs, Edbs.
  rewrite invocations_app, trace_for_each_cons, invocations_app.
  rewrite run_database_invocations, Htables. cbn [fst]. rewrite Etables.
  reflexivity.
Qed.

(** C3: when the line read from standard input is empty or holds only
    whitespace, [main] prints "Invalid URL" and runs no command; when
    something is left after trimming, [main] runs [run_sqlmap] on the
    trimmed text. *)
Theorem main_checks_url (typed : str) (w w1 : World) :
  read_line w = (typed, w1) ->
  (forallb isspace typed = true ->
   main tool read_line w
   = (tt, [Prompt (py "Enter target URL: "); Print (py "Invalid URL")], w1)
   /\ invocations (trace (main tool read_line) w) = [])
  /\ (strip typed <> [] ->
      main tool read_line w
      = let '(u, t, w2) := run_sqlmap tool (strip typed) w1 in
        (u, Prompt (py "Enter target URL: ") :: t, w2)).
Proof.
  intros Hread. unfold trace, main, bind, input. rewrite Hread. split.
  - intros Hspace. apply strip_empty_iff in Hspace. rewrite Hspace.
    split; reflexivity.
  - intros Hurl. destruct (strip typed) as [| c url]; [contradiction |].
    destruct (run_sqlmap tool (c :: url) w1) as [[u t] w2]. reflexivity.
Qed.

(** C4 (amended): when no newline-terminated line of the database listing
    holds the marker anywhere in it, [run_sqlmap] runs the database listing
    and nothing else, prints "No databases found." and returns. *)
Theorem run_sqlmap_no_databases (url dbs_output : str) (w w1 : World) :
  tool (dbs_command url) w = (dbs_output, w1) ->
  Forall (fun l => after_marker l = None) (terminated_lines dbs_output) ->
  run_sqlmap tool url w
  = (tt,
     [Print (py "Running SQLMap on " ++ url ++ py " to fetch databases...");
      Invoke (dbs_command url);
      Print dbs_output;
      Print (py "No databases found.")],
     w1)
  /\ invocations (trace (run_sqlmap tool url) w) = [dbs_command url].
Proof.
  intros Hdbs Hnone. apply extract_databases_no_match in Hnone.
  unfold trace, run_sqlmap, bind, getoutput, print.
  rewrite Hdbs, Hnone. split; reflexivity.
Qed.

(** The round of the inner loop for table t1, when its column listing
    returns the two lines "[*] id" and "[*] name". *)
Lemma run_table_reports_columns (url db : str) (w w1 : World) :
  tool (columns_command url db (py "t1")) w
  = (line "[*] id" ++ line "[*] name", w1) ->
  run_table tool url db (py "t1") w
  = (tt,
     [Print (py "Extracting columns from t1...");
      Invoke (columns_command url db (py "t1"));
      Print (line "[*] id" ++ line "[*] name");
      Print (py "Columns in t1: id, name")],
     w1).
Proof.
  intros Hcols. unfold run_table, bind, getoutput, print. rewrite Hcols.
  assert (E : extract_columns (line "[*] id" ++ line "[*] name")
              = [py "id"; py "name"]) by (vm_compute; reflexivity).
  rewrite E. reflexivity.
Qed.

(** C8: for every URL and database name, the table-listing command is the
    words sqlmap, -u, the URL, -D, the database name, --batch, --tables
    joined by single spaces, with the URL and the name put in as they are;
    it is the first command of the round for that database, and
    [run_sqlmap] runs it for every name the extractor returned. *)
Theorem tables_command_interpolates (url db : str) (w : World) :
  tables_command url db
  = join (py " ")
         [py "sqlmap"; py "-u"; url; py "-D"; db; py "--batch"; py "--tables"]
  /\ hd_error (invocations (trace (run_database tool url db) w))
     = Some (tables_command url db)
  /\ (In db (extract_databases (fst (tool (dbs_command url) w))) ->
      In (tables_command url db)
         (invocations (trace (run_sqlmap tool url) w))).
Proof.
  split; [reflexivity | split].
  - rewrite run_database_invocations. reflexivity.
  - apply run_sqlmap_invokes_tables.
Qed.

(** C10: a database listing with a line that is exactly "[*] " makes the
    extractor return the empty string among its identifiers, and
    [run_sqlmap] then runs the table listing with nothing after -D. *)
Theorem empty_identifier_reaches_command
        (url pre post : str) (w w1 : World) :
  pre = [] \/ (exists pre', pre = pre' ++ [nl]) ->
  In [] (extract_databases (pre ++ marker ++ [nl] ++ post))
  /\ (tool (dbs_command url) w = (pre ++ marker ++ [nl] ++ post, w1) ->
      In (py "sqlmap -u " ++ url ++ py " -D  --batch --tables")
         (invocations (trace (run_sqlmap tool url) w))).
Proof.
  intros Hpre. pose proof (extract_databases_bare_marker pre post Hpre) as Hin.
  split; [exact Hin |]. intros Hdbs.
  change (py "sqlmap -u " ++ url ++ py " -D  --batch --tables")
    with (tables_command url []).
  apply run_sqlmap_invokes_tables. rewrite Hdbs. exact Hin.
Qed.

End OrchestratorFacts.

(* ===================================================================== *)
(** * Runs on canned answers *)
(* ===================================================================== *)

Lemma run_sqlmap_four_invocations_witness :
  extract_databases (line "available databases [1]:" ++ line "[*] db1")
  = [py "db1"]
  /\ extract_tables (line "[*] t1" ++ line "[*] t2") = [py "t1"; py "t2"]
  /\ invocations (trace (run_sqlmap script_tool example_url) example_world)
     = [py "sqlmap -u http://target/item?id=1 --batch --dbs --disable-color";
        py "sqlmap -u http://target/item?id=1 -D db1 --batch --tables";
        py "sqlmap -u http://target/item?id=1 -D db1 -T t1 --batch --columns";
        py "sqlmap -u http://target/item?id=1 -D db1 -T t2 --batch --columns"].
Proof.
  assert (Edbs : extract_databases
                   (line "available databases [1]:" ++ line "[*] db1")
                 = [py "db1"]) by (vm_compute; reflexivity).
  assert (Etables : extract_tables (line "[*] t1" ++ line "[*] t2")
                    = [py "t1"; py "t2"]) by (vm_compute; reflexivity).
  split; [exact Edbs | split; [exact Etables |]].
  exact (run_sqlmap_four_invocations script script_tool example_url
           (line "available databases [1]:" ++ line "[*] db1")
           (line "[*] t1" ++ line "[*] t2")
           example_world
           {| stdin := stdin example_world;
              answers := tl (answers example_world) |}
           {| stdin := stdin example_world;
              answers := tl (tl (answers example_world)) |}
           eq_refl Edbs eq_refl Etables).
Defined.

Lemma main_checks_url_witness :
  (main script_tool script_read_line blank_world
   = (tt, [Prompt (py "Enter target URL: "); Print (py "Invalid URL")],
      {| stdin := []; answers := [] |})
   /\ invocations (trace (main script_tool script_read_line) blank_world) = [])
  /\ main script_tool script_read_line example_world
     = (let '(u, t, w2) :=
          run_sqlmap script_tool example_url
            {| stdin := []; answers := answers example_world |} in
        (u, Prompt (py "Enter target URL: ") :: t, w2)).
Proof.
  split.
  - apply (main_checks_url script script_tool script_read_line (py "   ")
             blank_world {| stdin := []; answers := [] |} eq_refl).
    reflexivity.
  - apply (main_checks_url script script_tool script_read_line
             (py "  http://target/item?id=1 ")
             example_world {| stdin := []; answers := answers example_world |}
             eq_refl).
    vm_compute. discriminate.
Defined.

Lemma run_sqlmap_no_databases_witness :
  run_sqlmap script_tool example_url empty_world
  = (tt,
     [Print (py "Running SQLMap on http://target/item?id=1 to fetch databases...");
      Invoke (py "sqlmap -u http://target/item?id=1 --batch --dbs --disable-color");
      Print (line "[CRITICAL] no injectable parameter");
      Print (py "No databases found.")],
     {| stdin := []; answers := [] |})
  /\ invocations (trace (run_sqlmap script_tool example_url) empty_world)
     = [py "sqlmap -u http://target/item?id=1 --batch --dbs --disable-color"].
Proof.
  apply (run_sqlmap_no_databases script script_tool example_url
           (line "[CRITICAL] no injectable parameter")
           empty_world {| stdin := []; answers := [] |} eq_refl).
  vm_compute. repeat constructor.
Defined.

Lemma run_table_round_example :
  run_table script_tool example_url (py "db1") (py "t1")
    {| stdin := []; answers := [line "[*] id" ++ line "[*] name"] |}
  = (tt,
     [Print (py "Extracting columns from t1...");
      Invoke (py "sqlmap -u http://target/item?id=1 -D db1 -T t1 --batch --columns");
      Print (line "[*] id" ++ line "[*] name");
      Print (py "Columns in t1: id, name")],
     {| stdin := []; answers := [] |}).
Proof.
  exact (run_table_reports_columns script script_tool example_url (py "db1")
           {| stdin := []; answers := [line "[*] id" ++ line "[*] name"] |}
           {| stdin := []; answers := [] |} eq_refl).
Defined.

Lemma tables_command_interpolates_witness :
  In (py "db1")
     (extract_databases (fst (script_tool (dbs_command example_url) example_world)))
  /\ In (py "sqlmap -u http://target/item?id=1 -D db1 --batch --tables")
        (invocations (trace (run_sqlmap script_tool example_url) example_world)).
Proof.
  assert (H : In (py "db1")
                 (extract_databases
                    (fst (script_tool (dbs_command example_url) example_world))))
    by (vm_compute; left; reflexivity).
  split; [exact H |].
  exact (proj2 (proj2 (tables_command_interpolates script script_tool
                         example_url (py "db1") example_world)) H).
Defined.

Lemma empty_identifier_reaches_command_witness :
  In [] (extract_databases
           (line "available databases [1]:" ++ marker ++ [nl] ++ []))
  /\ In (py "sqlmap -u http://target/item?id=1 -D  --batch --tables")
        (invocations (trace (run_sqlmap script_tool example_url)
                            bare_marker_world)).
Proof.
  pose proof (empty_identifier_reaches_command script script_tool example_url
                (line "available databases [1]:") []
                bare_marker_world {| stdin := []; answers := [] |}
                (or_intror (ex_intro _ (py "available databases [1]:") eq_refl)))
    as [Hin Hrun].
  split; [exact Hin | exact (Hrun eq_refl)].
Defined.

(** The whole script on the canned target: the trimmed URL is scanned and
    the columns of [t1] are reported. *)
Example main_example_run :
  invocations (trace (main script_tool script_read_line) example_world)
  = [py "sqlmap -u http://target/item?id=1 --batch --dbs --disable-color";
     py "sqlmap -u http://target/item?id=1 -D db1 --batch --tables";
     py "sqlmap -u http://target/item?id=1 -D db1 -T t1 --batch --columns";
     py "sqlmap -u http://target/item?id=1 -D db1 -T t2 --batch --columns"]
  /\ In (py "Columns in t1: id, name")
        (printed (trace (main script_tool script_read_line) example_world))
  /\ In (py "No columns found in table t2.")
        (printed (trace (main script_tool script_read_line) example_world)).
Proof.
  split; [vm_compute; reflexivity | split; vm_compute; tauto].
Qed.

(* ===================================================================== *)
(** * More about the identifier extractor *)
(* ===================================================================== *)

Lemma terminated_line_occurs (text l : str) :
  In l (terminated_lines text) ->
  no_newline l /\ exists a b, text = a ++ l ++ nl :: b.
Proof.
  destruct (split_lines_spec text) as (Heq & Hls & _). intros Hin.
  split; [exact (proj1 (Forall_forall _ _) Hls l Hin) |].
  apply in_split in Hin. destruct Hin as (l1 & l2 & Hsplit).
  rewrite Hsplit in Heq.
  rewrite map_app, concat_app in Heq. cbn [map concat] in Heq.
  exists (concat (map (fun l => l ++ [nl]) l1)).
  exists (concat (map (fun l => l ++ [nl]) l2) ++ unterminated_rest text).
  rewrite Heq at 1. rewrite <- !app_assoc. reflexivity.
Qed.

Lemma terminated_lines_concat (ls : list str) (x : str) :
  Forall no_newline ls ->
  terminated_lines (concat (map (fun l => l ++ [nl]) ls) ++ x)
  = ls ++ terminated_lines x.
Proof.
  intros H. induction H as [| l ls Hl H IH]; [reflexivity |].
  cbn [map concat]. rewrite <- !app_assoc. cbn [app].
  unfold terminated_lines at 1. rewrite (split_lines_line _ _ Hl).
  cbn [fst]. rewrite IH. reflexivity.
Qed.

Lemma extract_databases_In (text r : str) :
  In r (extract_databases text) ->
  no_newline r /\ exists pre post, text = pre ++ marker ++ r ++ nl :: post.
Proof.
  rewrite extract_databases_by_line. unfold extract_by_line.
  rewrite in_flat_map. intros (l & Hl & Hr).
  unfold capture_in_line in Hr.
  destruct (after_marker l) as [r' |] eqn:E; [| destruct Hr].
  destruct Hr as [<- | []].
  destruct (terminated_line_occurs text l Hl) as (Hnl & a & b & Htext).
  destruct (after_marker_first l r' E) as (pre & Hpre & _).
  split.
  - rewrite Hpre in Hnl. apply no_newline_app in Hnl. destruct Hnl as [_ Hnl].
    apply no_newline_app in Hnl. tauto.
  - exists (a ++ pre), b. rewrite Htext, Hpre. rewrite <- !app_assoc.
    reflexivity.
Qed.

Lemma extract_databases_occurrence (pre r post : str) :
  no_newline r ->
  extract_databases (pre ++ marker ++ r ++ nl :: post) <> [].
Proof.
  intros Hr Hempty. apply extract_databases_empty_iff in Hempty.
  destruct (split_lines_spec pre) as (Hpre & Hls & Hrest).
  set (l := unterminated_rest pre ++ marker ++ r).
  assert (Htext : pre ++ marker ++ r ++ nl :: post
                  = concat (map (fun l => l ++ [nl]) (terminated_lines pre))
                      ++ l ++ nl :: post).
  { rewrite Hpre at 1. unfold l. rewrite <- !app_assoc. reflexivity. }
  assert (Hl : no_newline l).
  { unfold l. apply no_newline_app. split; [exact Hrest |].
    apply no_newline_app. split; [exact no_newline_marker | exact Hr]. }
  rewrite Htext, (terminated_lines_concat _ _ Hls) in Hempty.
  apply Forall_app in Hempty. destruct Hempty as [_ Hempty].
  unfold terminated_lines in Hempty. rewrite (split_lines_line _ _ Hl) in Hempty.
  cbn [fst] in Hempty. inversion Hempty as [| l' ls' Hnone _]; subst.
  exact (after_marker_complete (unterminated_rest pre) r Hnone).
Qed.

Lemma terminated_lines_count (text : str) :
  length (terminated_lines text) = count_occ N.eq_dec text nl.
Proof.
  unfold terminated_lines. induction text as [| c text IH]; [reflexivity |].
  cbn [split_lines count_occ]. destruct (split_lines text) as [ls r].
  cbn [fst] in IH. destruct (N.eq_dec c nl) as [-> | Hc].
  - rewrite N.eqb_refl. cbn [fst length]. rewrite IH. reflexivity.
  - destruct (N.eqb_spec c nl); [contradiction |].
    destruct ls; cbn [fst length] in *; exact IH.
Qed.

(** X1: whatever one of the three extractors returns holds no newline and
    stands in the text between a marker and a newline. *)
Theorem extracted_identifier_occurs (text r : str) :
  In r (extract_databases text) \/ In r (extract_tables text)
  \/ In r (extract_columns text) ->
  no_newline r /\ exists pre post, text = pre ++ marker ++ r ++ nl :: post.
Proof.
  intros [H | [H | H]]; exact (extract_databases_In text r H).
Qed.

Lemma extracted_identifier_occurs_witness :
  no_newline (py "db1")
  /\ exists pre post,
       line "available databases [1]:" ++ line "[*] db1"
       = pre ++ marker ++ py "db1" ++ nl :: post.
Proof.
  apply (extracted_identifier_occurs
           (line "available databases [1]:" ++ line "[*] db1") (py "db1")).
  left. vm_compute. left. reflexivity.
Defined.

(** X2: an extractor returns the empty list exactly when the text nowhere
    holds the marker followed, before the next newline, by a newline-free
    text and a newline. *)
Theorem extract_nothing_iff (text : str) :
  extract_databases text = []
  <-> ~ exists pre r post,
        no_newline r /\ text = pre ++ marker ++ r ++ nl :: post.
Proof.
  split.
  - intros Hempty (pre & r & post & Hr & Htext). subst text.
    exact (extract_databases_occurrence pre r post Hr Hempty).
  - intros Hnone. destruct (extract_databases text) as [| r rs] eqn:E;
      [reflexivity |].
    exfalso. apply Hnone.
    destruct (extract_databases_In text r) as (Hr & pre & post & Htext).
    { rewrite E. left. reflexivity. }
    exists pre, r, post. split; assumption.
Qed.

(** X3: an extractor returns at most one identifier for each newline of the
    text. *)
Theorem extract_at_most_one_per_newline (text : str) :
  length (extract_databases text) <= count_occ N.eq_dec text nl.
Proof.
  rewrite extract_databases_by_line, <- terminated_lines_count.
  unfold extract_by_line.
  induction (terminated_lines text) as [| l ls IH]; [apply le_n |].
  cbn [flat_map length]. rewrite length_app.
  unfold capture_in_line at 1. destruct (after_marker l); cbn [length]; lia.
Qed.

(** X4: names written out one per line, each after the marker and closed by
    a newline, are read back as they are and in their order, whatever
    newline-free text they hold (a marker of their own, blanks, a carriage
    return). *)
Theorem extract_reads_back_marked_lines (names : list str) :
  Forall no_newline names ->
  extract_databases (concat (map (fun n => marker ++ n ++ [nl]) names)) = names
  /\ extract_tables (concat (map (fun n => marker ++ n ++ [nl]) names)) = names
  /\ extract_columns (concat (map (fun n => marker ++ n ++ [nl]) names)) = names.
Proof.
  intros H. split; [| split]; exact (extract_databases_marked_lines names H).
Qed.

Lemma extract_reads_back_marked_lines_witness :
  Forall no_newline [py "[*] x"; py "name  "; py "db" ++ [13%N]]
  /\ extract_databases
       (concat (map (fun n => marker ++ n ++ [nl])
                    [py "[*] x"; py "name  "; py "db" ++ [13%N]]))
     = [py "[*] x"; py "name  "; py "db" ++ [13%N]].
Proof.
  assert (H : Forall no_newline [py "[*] x"; py "name  "; py "db" ++ [13%N]]).
  { repeat constructor; unfold no_newline; vm_compute; intuition discriminate. }
  split; [exact H |].
  exact (proj1 (extract_reads_back_marked_lines _ H)).
Defined.

(** X5: extraction goes piece by piece over a text cut after a newline:
    what is extracted from the whole is what is extracted from the part up
    to the newline followed by what is extracted from the part after it. *)
Theorem extract_splits_at_newline (a b : str) :
  extract_databases (a ++ nl :: b)
  = extract_databases (a ++ [nl]) ++ extract_databases b.
Proof.
  rewrite !extract_databases_by_line. unfold extract_by_line.
  rewrite terminated_lines_app. apply flat_map_app.
Qed.

(* ===================================================================== *)
(** * More about trimming *)
(* ===================================================================== *)

Lemma blank_app (a b : str) : blank (a ++ b) <-> blank a /\ blank b.
Proof.
  unfold blank. rewrite forallb_app. apply andb_true_iff.
Qed.

Lemma blank_rev (a : str) : blank (rev a) <-> blank a.
Proof.
  unfold blank. rewrite !forallb_forall.
  split; intros H x Hx; apply H; [apply in_rev in Hx | apply in_rev];
    rewrite ?rev_involutive; exact Hx.
Qed.

Lemma lstrip_decomp (s : str) : exists l, s = l ++ lstrip s /\ blank l.
Proof.
  induction s as [| c s (l & Hs & Hl)].
  - exists []. split; reflexivity.
  - cbn [lstrip]. destruct (isspace c) eqn:E.
    + exists (c :: l). split; [cbn [app]; f_equal; exact Hs |].
      unfold blank in *. cbn [forallb]. rewrite E, Hl. reflexivity.
    + exists []. split; reflexivity.
Qed.

Lemma lstrip_blank_app (l x : str) : blank l -> lstrip (l ++ x) = lstrip x.
Proof.
  unfold blank. induction l as [| c l IH]; [reflexivity |].
  cbn [forallb app lstrip]. intros H. apply andb_prop in H.
  destruct H as [Hc Hl]. rewrite Hc. exact (IH Hl).
Qed.

Lemma lstrip_app_kept (s r : str) :
  lstrip s <> [] -> lstrip (s ++ r) = lstrip s ++ r.
Proof.
  induction s as [| c s IH]; [intros H; contradiction |].
  cbn [app lstrip]. destruct (isspace c); [exact IH | reflexivity].
Qed.

Lemma rstrip_decomp (s : str) : exists r, s = rstrip s ++ r /\ blank r.
Proof.
  unfold rstrip. destruct (lstrip_decomp (rev s)) as (l & Hs & Hl).
  exists (rev l). split; [| apply blank_rev; exact Hl].
  rewrite <- rev_app_distr, <- Hs, rev_involutive. reflexivity.
Qed.

Lemma rstrip_app_blank (x r : str) : blank r -> rstrip (x ++ r) = rstrip x.
Proof.
  intros H. unfold rstrip. rewrite rev_app_distr.
  rewrite lstrip_blank_app; [reflexivity | apply blank_rev; exact H].
Qed.

(** Blanks around a text do not change what [strip] leaves of it. *)
Lemma strip_pad (l s r : str) :
  blank l -> blank r -> strip (l ++ s ++ r) = strip s.
Proof.
  intros Hl Hr. unfold strip. rewrite (lstrip_blank_app _ _ Hl).
  destruct (lstrip s) as [| c t] eqn:E.
  - apply lstrip_nil_inv in E.
    rewrite (lstrip_all_space (s ++ r)); [reflexivity |].
    apply blank_app. split; assumption.
  - rewrite lstrip_app_kept; [| rewrite E; discriminate].
    rewrite E. apply rstrip_app_blank. exact Hr.
Qed.

(** [strip] cuts blanks off both ends and nothing else. *)
Lemma strip_decomp (s : str) :
  exists l r, s = l ++ strip s ++ r /\ blank l /\ blank r.
Proof.
  destruct (lstrip_decomp s) as (l & Hs & Hl).
  destruct (rstrip_decomp (lstrip s)) as (r & Ht & Hr).
  exists l, r. unfold strip. rewrite <- Ht. auto.
Qed.

(** What [strip] leaves, if anything, starts and ends with a character that
    is not whitespace. *)
Lemma strip_ends (s : str) :
  strip s <> [] ->
  (exists c t, strip s = c :: t /\ isspace c = false)
  /\ (exists t c, strip s = t ++ [c] /\ isspace c = false).
Proof.
  unfold strip, rstrip. intros Hne.
  destruct (lstrip (rev (lstrip s))) as [| c u] eqn:E; [contradiction |].
  split.
  - destruct (lstrip_decomp (rev (lstrip s))) as (l & Hrev & Hl).
    rewrite E in Hrev. apply (f_equal (@rev char)) in Hrev.
    rewrite rev_involutive, rev_app_distr in Hrev.
    destruct (lstrip s) as [| x t] eqn:Et.
    + apply (f_equal (@length char)) in Hrev.
      rewrite length_app, length_rev in Hrev. cbn [length] in Hrev. lia.
    + destruct (rev (c :: u)) as [| y v] eqn:Ev.
      * apply (f_equal (@length char)) in Ev.
        rewrite length_rev in Ev. discriminate Ev.
      * cbn [app] in Hrev. injection Hrev as Hx _. subst y.
        exists x, v. split; [reflexivity | exact (lstrip_head _ _ _ Et)].
  - exists (rev u), c. split; [reflexivity | exact (lstrip_head _ _ _ E)].
Qed.

(* ===================================================================== *)
(** * More about the orchestrator *)
(* ===================================================================== *)

Ltac literal_no_newline :=
  unfold no_newline; vm_compute; intuition discriminate.

Lemma no_newline_tables_command (url db : str) :
  no_newline url -> no_newline db -> no_newline (tables_command url db).
Proof.
  intros Hu Hd. unfold tables_command.
  repeat (apply no_newline_app; split); try assumption; literal_no_newline.
Qed.

Lemma no_newline_columns_command (url db table : str) :
  no_newline url -> no_newline db -> no_newline table ->
  no_newline (columns_command url db table).
Proof.
  intros Hu Hd Ht. unfold columns_command.
  repeat (apply no_newline_app; split); try assumption; literal_no_newline.
Qed.

Lemma no_newline_dbs_command (url : str) :
  no_newline url -> no_newline (dbs_command url).
Proof.
  intros Hu. unfold dbs_command.
  repeat (apply no_newline_app; split); try assumption; literal_no_newline.
Qed.

Lemma extract_tables_no_newline (out : str) :
  Forall no_newline (extract_tables out).
Proof.
  apply Forall_forall. intros r Hr.
  exact (proj1 (extract_databases_In out r Hr)).
Qed.

Lemma round_of_commands (url db : str) (round : list str) :
  round_of url db round ->
  Forall (fun cmd => exists rest, cmd = py "sqlmap -u " ++ url ++ rest) round
  /\ (no_newline url -> no_newline db -> Forall no_newline round).
Proof.
  intros (out & ->). split.
  - constructor.
    + exists (py " -D " ++ db ++ py " --batch --tables"). reflexivity.
    + apply Forall_forall. intros cmd Hcmd. apply in_map_iff in Hcmd.
      destruct Hcmd as (t & <- & _).
      exists (py " -D " ++ db ++ py " -T " ++ t ++ py " --batch --columns").
      reflexivity.
  - intros Hu Hd. constructor.
    + exact (no_newline_tables_command url db Hu Hd).
    + apply Forall_forall. intros cmd Hcmd. apply in_map_iff in Hcmd.
      destruct Hcmd as (t & <- & Ht).
      apply (no_newline_columns_command url db t Hu Hd).
      exact (proj1 (Forall_forall _ _) (extract_tables_no_newline out) t Ht).
Qed.

Lemma rounds_commands (url : str) (P : str -> Prop) (Q : str -> Prop)
      (dbs : list str) (rounds : list (list str)) :
  (forall db round, P db -> round_of url db round -> Forall Q round) ->
  Forall2 (round_of url) dbs rounds -> Forall P dbs ->
  Forall Q (concat rounds).
Proof.
  intros Hstep H2. induction H2 as [| db round dbs rounds Hr H2 IH];
    intros HP; [constructor |].
  inversion HP as [| db' dbs' Hdb Hdbs]; subst.
  cbn [concat]. apply Forall_app. split; [| exact (IH Hdbs)].
  exact (Hstep db round Hdb Hr).
Qed.

Section OrchestratorMore.

Variable World : Type.
Variable tool : str -> World -> str * World.
Variable read_line : World -> str * World.

Lemma for_each_run_database_rounds (url : str) (dbs : list str) (w : World) :
  exists rounds,
    invocations (trace (for_each dbs (run_database tool url)) w) = concat rounds
    /\ Forall2 (round_of url) dbs rounds.
Proof.
  revert w. induction dbs as [| db dbs IH]; intros w.
  - exists []. split; [reflexivity | constructor].
  - destruct (IH (snd (run_database tool url db w))) as (rounds & Hinv & H2).
    exists ((tables_command url db
               :: map (columns_command url db)
                      (extract_tables (fst (tool (tables_command url db) w))))
            :: rounds).
    split.
    + rewrite trace_for_each_cons, invocations_app, run_database_invocations.
      rewrite Hinv. reflexivity.
    + constructor; [| exact H2].
      exists (fst (tool (tables_command url db) w)). reflexivity.
Qed.

Lemma run_sqlmap_rounds (url : str) (w : World) :
  exists rounds,
    invocations (trace (run_sqlmap tool url) w)
    = dbs_command url :: concat rounds
    /\ Forall2 (round_of url)
               (extract_databases (fst (tool (dbs_command url) w))) rounds.
Proof.
  rewrite run_sqlmap_unfold.
  destruct (tool (dbs_command url) w) as [out w1]. cbn [fst].
  destruct (extract_databases out) as [| d ds] eqn:E.
  - exists []. split; [reflexivity | constructor].
  - destruct (for_each_run_database_rounds url (d :: ds) w1)
      as (rounds & Hinv & H2).
    exists rounds. split; [| exact H2].
    rewrite invocations_app, Hinv. reflexivity.
Qed.

(** X6: when no line of the column listing holds the marker, the round for a
    table runs that one command, echoes its output and prints
    "No columns found in table <table>.". *)
Theorem run_table_no_columns (url db table out : str) (w w1 : World) :
  tool (columns_command url db table) w = (out, w1) ->
  Forall (fun l => after_marker l = None) (terminated_lines out) ->
  run_table tool url db table w
  = (tt,
     [Print (py "Extracting columns from " ++ table ++ py "...");
      Invoke (columns_command url db table);
      Print out;
      Print (py "No columns found in table " ++ table ++ py ".")],
     w1).
Proof.
  intros Hcols Hnone. apply extract_databases_no_match in Hnone.
  change (extract_databases out) with (extract_columns out) in Hnone.
  unfold run_table, bind, getoutput, print. rewrite Hcols, Hnone. reflexivity.
Qed.

(** X7: when no line of the table listing holds the marker, the round for a
    database runs the table listing and no column listing, echoes the output
    and prints "No tables found in database <db>.". *)
Theorem run_database_no_tables (url db out : str) (w w1 : World) :
  tool (tables_command url db) w = (out, w1) ->
  Forall (fun l => after_marker l = None) (terminated_lines out) ->
  run_database tool url db w
  = (tt,
     [Print (py "Found database: " ++ db);
      Invoke (tables_command url db);
      Print out;
      Print (py "No tables found in database " ++ db ++ py ".")],
     w1).
Proof.
  intros Htables Hnone. apply extract_databases_no_match in Hnone.
  change (extract_databases out) with (extract_tables out) in Hnone.
  unfold run_database, bind, getoutput, print.
  rewrite Htables, Hnone. reflexivity.
Qed.

(** X8: the round for a database runs the table listing and then, for every
    table read from its output and in that order, the column listing, whose
    command line is the words sqlmap, -u, the URL, -D, the database, -T, the
    table, --batch, --columns joined by single spaces with the three texts
    put in as they are. *)
Theorem run_database_commands (url db : str) (w : World) :
  invocations (trace (run_database tool url db) w)
  = tables_command url db
      :: map (columns_command url db)
             (extract_tables (fst (tool (tables_command url db) w)))
  /\ forall table,
       columns_command url db table
       = join (py " ")
              [py "sqlmap"; py "-u"; url; py "-D"; db; py "-T"; table;
               py "--batch"; py "--columns"].
Proof.
  split; [apply run_database_invocations | reflexivity].
Qed.

(** X11: every command a run hands to the shell starts with "sqlmap -u "
    and the URL; and when the URL holds no newline, no command does. *)
Theorem run_sqlmap_only_runs_sqlmap (url : str) (w : World) :
  Forall (fun cmd => exists rest, cmd = py "sqlmap -u " ++ url ++ rest)
         (invocations (trace (run_sqlmap tool url) w))
  /\ (no_newline url ->
      Forall no_newline (invocations (trace (run_sqlmap tool url) w))).
Proof.
  destruct (run_sqlmap_rounds url w) as (rounds & -> & H2).
  assert (Hdbs : Forall no_newline
                   (extract_databases (fst (tool (dbs_command url) w)))).
  { apply extract_tables_no_newline. }
  split.
  - constructor.
    + exists (py " --batch --dbs --disable-color"). reflexivity.
    + apply (rounds_commands url (fun _ => True) _ _ rounds
               (fun db round _ Hr => proj1 (round_of_commands url db round Hr))
               H2).
      apply Forall_forall. intros; exact I.
  - intros Hu. constructor.
    + exact (no_newline_dbs_command url Hu).
    + apply (rounds_commands url no_newline _ _ rounds
               (fun db round Hd Hr =>
                  proj2 (round_of_commands url db round Hr) Hu Hd)
               H2 Hdbs).
Qed.

(** X12: when something is left of the typed line after trimming, the first
    command [main] runs is the database listing of the trimmed text; the
    typed line is the trimmed text between two runs of whitespace, and the
    trimmed text starts and ends with a character that is not whitespace. *)
Theorem main_scans_trimmed_url (typed : str) (w w1 : World) :
  read_line w = (typed, w1) ->
  strip typed <> [] ->
  hd_error (invocations (trace (main tool read_line) w))
  = Some (dbs_command (strip typed))
  /\ (exists l r, typed = l ++ strip typed ++ r /\ blank l /\ blank r)
  /\ (exists c t, strip typed = c :: t /\ isspace c = false)
  /\ (exists t c, strip typed = t ++ [c] /\ isspace c = false).
Proof.
  intros Hread Hurl. split; [| split; [apply strip_decomp |
                                       apply strip_ends; exact Hurl]].
  pose proof (run_sqlmap_unfold World tool (strip typed) w1) as Hrun.
  unfold trace in *. unfold main, bind, input. rewrite Hread.
  destruct (strip typed) as [| c url] eqn:E; [contradiction |].
  destruct (run_sqlmap tool (c :: url) w1) as [[u t] w2].
  cbn [fst snd] in *. rewrite Hrun.
  destruct (tool (dbs_command (c :: url)) w1) as [out w2']. reflexivity.
Qed.

(** X13: whitespace typed before and after the URL changes nothing: [main]
    does the same on the padded line as on the line itself. *)
Theorem main_ignores_padding (l typed r : str) (w w' w1 : World) :
  blank l -> blank r ->
  read_line w = (typed, w1) ->
  read_line w' = (l ++ typed ++ r, w1) ->
  main tool read_line w' = main tool read_line w.
Proof.
  intros Hl Hr Hread Hread'. unfold main, bind, input.
  rewrite Hread, Hread', (strip_pad l typed r Hl Hr). reflexivity.
Qed.

End OrchestratorMore.

(* ===================================================================== *)
(** * More runs on canned answers *)
(* ===================================================================== *)

Lemma extract_nothing_iff_witness :
  extract_databases (line "[*]db1" ++ py "[*] db2") = []
  /\ ~ exists pre r post,
        no_newline r
        /\ line "[*]db1" ++ py "[*] db2" = pre ++ marker ++ r ++ nl :: post.
Proof.
  assert (E : extract_databases (line "[*]db1" ++ py "[*] db2") = [])
    by (vm_compute; reflexivity).
  split; [exact E |].
  exact (proj1 (extract_nothing_iff (line "[*]db1" ++ py "[*] db2")) E).
Defined.

Lemma run_table_no_columns_witness :
  run_table script_tool example_url (py "db1") (py "users")
    {| stdin := []; answers := [line "Table: users" ++ line "[2 columns]"] |}
  = (tt,
     [Print (py "Extracting columns from users...");
      Invoke (py "sqlmap -u http://target/item?id=1 -D db1 -T users --batch --columns");
      Print (line "Table: users" ++ line "[2 columns]");
      Print (py "No columns found in table users.")],
     {| stdin := []; answers := [] |}).
Proof.
  apply (run_table_no_columns script script_tool example_url (py "db1")
           (py "users") (line "Table: users" ++ line "[2 columns]")
           {| stdin := [];
              answers := [line "Table: users" ++ line "[2 columns]"] |}
           {| stdin := []; answers := [] |} eq_refl).
  vm_compute. repeat constructor.
Defined.

Lemma run_database_no_tables_witness :
  run_database script_tool example_url (py "db1")
    {| stdin := []; answers := [line "Database: db1" ++ line "[1 table]"] |}
  = (tt,
     [Print (py "Found database: db1");
      Invoke (py "sqlmap -u http://target/item?id=1 -D db1 --batch --tables");
      Print (line "Database: db1" ++ line "[1 table]");
      Print (py "No tables found in database db1.")],
     {| stdin := []; answers := [] |}).
Proof.
  apply (run_database_no_tables script script_tool example_url (py "db1")
           (line "Database: db1" ++ line "[1 table]")
           {| stdin := [];
              answers := [line "Database: db1" ++ line "[1 table]"] |}
           {| stdin := []; answers := [] |} eq_refl).
  vm_compute. repeat constructor.
Defined.

Lemma run_sqlmap_only_runs_sqlmap_witness :
  no_newline example_url
  /\ Forall no_newline
       (invocations (trace (run_sqlmap script_tool example_url) example_world)).
Proof.
  assert (H : no_newline example_url) by literal_no_newline.
  split; [exact H |].
  exact (proj2 (run_sqlmap_only_runs_sqlmap script script_tool example_url
                  example_world) H).
Defined.

Lemma main_scans_trimmed_url_witness :
  hd_error (invocations (trace (main script_tool script_read_line) example_world))
  = Some (dbs_command (strip (py "  http://target/item?id=1 ")))
  /\ strip (py "  http://target/item?id=1 ") = example_url.
Proof.
  split; [| vm_compute; reflexivity].
  apply (main_scans_trimmed_url script script_tool script_read_line
           (py "  http://target/item?id=1 ") example_world
           {| stdin := []; answers := answers example_world |} eq_refl).
  vm_compute. discriminate.
Defined.

Lemma main_ignores_padding_witness :
  main script_tool script_read_line example_world
  = main script_tool script_read_line
      {| stdin := [example_url]; answers := answers example_world |}.
Proof.
  apply (main_ignores_padding script script_tool script_read_line
           (py "  ") example_url (py " ")
           {| stdin := [example_url]; answers := answers example_world |}
           example_world
           {| stdin := []; answers := answers example_world |});
    reflexivity.
Defined.

(* ===================================================================== *)
(** * Rounds of the two loops inside a whole run *)
(* ===================================================================== *)

Section OrchestratorRuns.

Variable World : Type.
Variable tool : str -> World -> str * World.

(** A loop over [before ++ x :: after] does the rounds of [before], then the
    round of [x] in the world those have left, then the rounds of
    [after]. *)
Lemma for_each_round (A : Type) (body : A -> M World unit)
      (before after : list A) (x : A) (w : World) :
  exists pre post,
    trace (for_each (before ++ x :: after) body) w
    = pre ++ trace (body x) (snd (for_each before body w)) ++ post.
Proof.
  revert w. induction before as [| y before IH]; intros w.
  - exists [], (trace (for_each after body) (snd (body x w))).
    cbn [app]. apply trace_for_each_cons.
  - destruct (IH (snd (body y w))) as (pre & post & Hrest).
    exists (trace (body y) w ++ pre), post.
    cbn [app]. rewrite trace_for_each_cons, Hrest, <- app_assoc.
    do 2 f_equal. cbn [for_each]. unfold bind.
    destruct (body y w) as [[u t] w']. cbn [snd].
    destruct (for_each before body w') as [[u' t'] w'']. reflexivity.
Qed.

(** What [run_database] does once the table listing has been read. *)
Lemma run_database_unfold (url db : str) (w : World) :
  trace (run_database tool url db) w
  = let '(tables_output, w1) := tool (tables_command url db) w in
    [Print (py "Found database: " ++ db);
     Invoke (tables_command url db);
     Print tables_output]
    ++ match extract_tables tables_output with
       | [] => [Print (py "No tables found in database " ++ db ++ py ".")]
       | tables => trace (for_each tables (run_table tool url db)) w1
       end.
Proof.
  unfold trace at 1. unfold run_database, bind, getoutput, print.
  destruct (tool (tables_command url db) w) as [out w1].
  destruct (extract_tables out) as [| t ts]; [reflexivity |].
  unfold trace.
  destruct (for_each (t :: ts) (run_table tool url db) w1) as [[u tr] w2].
  reflexivity.
Qed.

Lemma rounds_invocations (url : str) (dbs : list str) (w : World) :
  invocations (trace (for_each dbs (run_database tool url)) w)
  = concat (rounds tool url dbs w).
Proof.
  revert w. induction dbs as [| db dbs IH]; intros w; [reflexivity |].
  rewrite trace_for_each_cons, invocations_app, run_database_invocations, IH.
  reflexivity.
Qed.

Lemma run_database_trace_tables (url db out : str) (tables : list str)
      (w w1 : World) :
  tool (tables_command url db) w = (out, w1) ->
  extract_tables out = tables -> tables <> [] ->
  trace (run_database tool url db) w
  = [Print (py "Found database: " ++ db);
     Invoke (tables_command url db);
     Print out]
    ++ trace (for_each tables (run_table tool url db)) w1.
Proof.
  intros Htool Etables Hne. rewrite run_database_unfold, Htool, Etables.
  destruct tables; [contradiction | reflexivity].
Qed.

Lemma run_sqlmap_trace_databases (url out : str) (dbs : list str)
      (w w1 : World) :
  tool (dbs_command url) w = (out, w1) ->
  extract_databases out = dbs -> dbs <> [] ->
  trace (run_sqlmap tool url) w
  = [Print (py "Running SQLMap on " ++ url ++ py " to fetch databases...");
     Invoke (dbs_command url);
     Print out]
    ++ trace (for_each dbs (run_database tool url)) w1.
Proof.
  intros Htool Edbs Hne. rewrite run_sqlmap_unfold, Htool, Edbs.
  destruct dbs; [contradiction | reflexivity].
Qed.

Lemma segment_nest (A : Type) (a b c d s p q : list A) :
  a ++ (b ++ (c ++ (d ++ s ++ p)) ++ q) = (a ++ b ++ c ++ d) ++ s ++ (p ++ q).
Proof.
  rewrite <- !app_assoc. reflexivity.
Qed.

(** C6: in any run of [run_sqlmap] that comes to a round for table t1 (of
    any extracted database, at any place in the two loops) in which the
    column listing returns the two lines "[*] id" and "[*] name", the run
    prints the progress line for t1, runs the column listing, echoes its
    output and then reports the line "Columns in t1: id, name". *)
Theorem run_sqlmap_reports_columns
        (url dbs_output db tables_output : str)
        (dbs_before dbs_after tables_before tables_after : list str)
        (w w1 w2 w3 : World) :
  tool (dbs_command url) w = (dbs_output, w1) ->
  extract_databases dbs_output = dbs_before ++ db :: dbs_after ->
  tool (tables_command url db)
       (snd (for_each dbs_before (run_database tool url) w1))
  = (tables_output, w2) ->
  extract_tables tables_output = tables_before ++ py "t1" :: tables_after ->
  tool (columns_command url db (py "t1"))
       (snd (for_each tables_before (run_table tool url db) w2))
  = (line "[*] id" ++ line "[*] name", w3) ->
  exists pre post,
    trace (run_sqlmap tool url) w
    = pre
      ++ [Print (py "Extracting columns from t1...");
          Invoke (columns_command url db (py "t1"));
          Print (line "[*] id" ++ line "[*] name");
          Print (py "Columns in t1: id, name")]
      ++ post.
Proof.
  intros Hdbs Edbs Htables Etables Hcols.
  assert (Hround :
            trace (run_table tool url db (py "t1"))
                  (snd (for_each tables_before (run_table tool url db) w2))
            = [Print (py "Extracting columns from t1...");
               Invoke (columns_command url db (py "t1"));
               Print (line "[*] id" ++ line "[*] name");
               Print (py "Columns in t1: id, name")]).
  { unfold trace.
    rewrite (run_table_reports_columns World tool url db _ _ Hcols).
    reflexivity. }
  destruct (for_each_round _ (run_table tool url db) tables_before tables_after
              (py "t1") w2) as (pre2 & post2 & Hinner).
  destruct (for_each_round _ (run_database tool url) dbs_before dbs_after db w1)
    as (pre1 & post1 & Houter).
  assert (Hne1 : dbs_before ++ db :: dbs_after <> [])
    by (destruct dbs_before; discriminate).
  assert (Hne2 : tables_before ++ py "t1" :: tables_after <> [])
    by (destruct tables_before; discriminate).
  rewrite (run_sqlmap_trace_databases url dbs_output _ w w1 Hdbs Edbs Hne1).
  rewrite Houter.
  rewrite (run_database_trace_tables url db tables_output _ _ w2
             Htables Etables Hne2).
  rewrite Hinner, Hround.
  exists ([Print (py "Running SQLMap on " ++ url ++ py " to fetch databases...");
           Invoke (dbs_command url);
           Print dbs_output]
          ++ pre1
          ++ [Print (py "Found database: " ++ db);
              Invoke (tables_command url db);
              Print tables_output]
          ++ pre2).
  exists (post2 ++ post1).
  apply segment_nest.
Qed.

(** X9: in every world, the commands of a run are the database listing
    followed by one round per database name the extractor returned, in the
    extractor's order and with a repeated name served again; the round of a
    database is its table listing followed by the column listing of every
    table extracted from what the tool answered to that table listing. *)
Theorem run_sqlmap_runs_rounds (url : str) (w : World) :
  invocations (trace (run_sqlmap tool url) w)
  = dbs_command url
      :: concat (rounds tool url
                        (extract_databases (fst (tool (dbs_command url) w)))
                        (snd (tool (dbs_command url) w)))
  /\ length (rounds tool url
                    (extract_databases (fst (tool (dbs_command url) w)))
                    (snd (tool (dbs_command url) w)))
     = length (extract_databases (fst (tool (dbs_command url) w))).
Proof.
  split.
  - rewrite run_sqlmap_unfold.
    destruct (tool (dbs_command url) w) as [out w1]. cbn [fst snd].
    rewrite invocations_app.
    destruct (extract_databases out) as [| d ds] eqn:E; [reflexivity |].
    rewrite rounds_invocations. reflexivity.
  - generalize (snd (tool (dbs_command url) w)).
    induction (extract_databases (fst (tool (dbs_command url) w)))
      as [| d ds IH]; intros w'; [reflexivity |].
    cbn [rounds length]. rewrite IH. reflexivity.
Qed.

(** X10: against a target that answers a command line the same way every
    time it is asked (whatever else changes in the world), the commands of a
    run are fixed by the answers alone: the database listing, then for each
    extracted database its table listing followed by the column listing of
    each table extracted from that listing. *)
Theorem run_sqlmap_steady_target (answer : str -> str) (url : str) (w : World) :
  (forall cmd w', fst (tool cmd w') = answer cmd) ->
  invocations (trace (run_sqlmap tool url) w)
  = dbs_command url
      :: flat_map
           (fun db =>
              tables_command url db
                :: map (columns_command url db)
                       (extract_tables (answer (tables_command url db))))
           (extract_databases (answer (dbs_command url))).
Proof.
  intros Hsteady.
  assert (Hloop : forall dbs w',
             invocations (trace (for_each dbs (run_database tool url)) w')
             = flat_map
                 (fun db =>
                    tables_command url db
                      :: map (columns_command url db)
                           (extract_tables (answer (tables_command url db))))
                 dbs).
  { induction dbs as [| db dbs IH]; intros w'; [reflexivity |].
    rewrite trace_for_each_cons, invocations_app, run_database_invocations.
    rewrite Hsteady, IH. reflexivity. }
  rewrite run_sqlmap_unfold. pose proof (Hsteady (dbs_command url) w) as Hdbs.
  destruct (tool (dbs_command url) w) as [out w1]. cbn [fst] in Hdbs. subst out.
  rewrite invocations_app.
  destruct (extract_databases (answer (dbs_command url))) as [| d ds] eqn:E;
    [reflexivity |].
  rewrite Hloop. reflexivity.
Qed.

End OrchestratorRuns.

(** C4 (as stated, refuted): in the database listing "id [*] a" no line
    starts with the marker, yet [run_sqlmap] finds the database "a", goes on
    to its table listing and never prints "No databases found.". *)
Lemma run_sqlmap_marker_inside_line :
  Forall (fun l => strip_prefix marker l = None)
         (terminated_lines (line "id [*] a"))
  /\ extract_at_line_start (line "id [*] a") = []
  /\ invocations (trace (run_sqlmap script_tool example_url)
                        inline_marker_world)
     = [py "sqlmap -u http://target/item?id=1 --batch --dbs --disable-color";
        py "sqlmap -u http://target/item?id=1 -D a --batch --tables"]
  /\ invocations (trace (run_sqlmap script_tool example_url)
                        inline_marker_world)
     <> [dbs_command example_url]
  /\ ~ In (py "No databases found.")
         (printed (trace (run_sqlmap script_tool example_url)
                         inline_marker_world)).
Proof.
  assert (E : invocations (trace (run_sqlmap script_tool example_url)
                                 inline_marker_world)
              = [py "sqlmap -u http://target/item?id=1 --batch --dbs --disable-color";
                 py "sqlmap -u http://target/item?id=1 -D a --batch --tables"])
    by (vm_compute; reflexivity).
  split; [vm_compute; repeat constructor |].
  split; [vm_compute; reflexivity |].
  split; [exact E |].
  split; [rewrite E; discriminate |].
  vm_compute. intuition discriminate.
Qed.

Lemma run_sqlmap_reports_columns_witness :
  exists pre post,
    trace (run_sqlmap script_tool example_url) example_world
    = pre
      ++ [Print (py "Extracting columns from t1...");
          Invoke (py "sqlmap -u http://target/item?id=1 -D db1 -T t1 --batch --columns");
          Print (line "[*] id" ++ line "[*] name");
          Print (py "Columns in t1: id, name")]
      ++ post.
Proof.
  assert (Edbs : extract_databases
                   (line "available databases [1]:" ++ line "[*] db1")
                 = [] ++ py "db1" :: []) by (vm_compute; reflexivity).
  assert (Etables : extract_tables (line "[*] t1" ++ line "[*] t2")
                    = [] ++ py "t1" :: [py "t2"]) by (vm_compute; reflexivity).
  exact (run_sqlmap_reports_columns script script_tool example_url
           (line "available databases [1]:" ++ line "[*] db1") (py "db1")
           (line "[*] t1" ++ line "[*] t2")
           [] [] [] [py "t2"]
           example_world
           {| stdin := stdin example_world;
              answers := tl (answers example_world) |}
           {| stdin := stdin example_world;
              answers := tl (tl (answers example_world)) |}
           {| stdin := stdin example_world; answers := [] |}
           eq_refl Edbs eq_refl Etables eq_refl).
Defined.

Lemma run_sqlmap_steady_target_witness :
  invocations (trace (run_sqlmap counting_tool example_url) 0)
  = [py "sqlmap -u http://target/item?id=1 --batch --dbs --disable-color";
     py "sqlmap -u http://target/item?id=1 -D db1 --batch --tables";
     py "sqlmap -u http://target/item?id=1 -D db1 -T t1 --batch --columns";
     py "sqlmap -u http://target/item?id=1 -D db1 --batch --tables";
     py "sqlmap -u http://target/item?id=1 -D db1 -T t1 --batch --columns"].
Proof.
  rewrite (run_sqlmap_steady_target nat counting_tool steady_answer example_url
             0 (fun cmd w' => eq_refl)).
  vm_compute. reflexivity.
Defined.
